(** * GCE instances targets: inventory cache, refresh and resolution

    A shallow embedding of [targets/gce/instances.go]: the process-wide
    [instancesProvider] cache that is refilled by [expand], and the
    [instances] facade whose [Resolve] derives an address from a cached
    [compute.Instance].

    Conventions.
    - A Go [string] is a [string]; Go [int] and [int32] values are [Z]
      (the only conversion in this file, [int(ni.GetIndex())], widens and
      keeps the value; no arithmetic is done on it).
    - [net.IP] is a byte slice: a [list Z] of octets; the nil slice that
      [net.ParseIP] returns on failure is [None].
    - A Go [error] is its message; the nil error is [None].
    - [map[string]*compute.Instance] is a [gmap string Instance].
    - A run-time panic (index out of range, nil dereference) is an explicit
      outcome, [Panics].
    - The read/write mutex makes [get], [list] and the body of [expand]
      atomic with respect to each other; the embedding is sequential and
      treats each of them as one step. *)

From Stdlib Require Import ZArith Ascii String.
From stdpp Require Import gmap strings list pretty.

Local Open Scope string_scope.
Local Open Scope Z_scope.
Local Open Scope list_scope.

(** ** Values shared by all operations *)

Abbreviation IP := (list Z) (only parsing).
Abbreviation error := string (only parsing).

(** [net.IPNet]: the network address and its mask. *)
Record IPNet := mkIPNet { IPNet_IP : IP; IPNet_Mask : list Z }.

Inductive panic :=
| index_out_of_range (index : Z) (len : nat)
| nil_dereference.

Inductive outcome (A : Type) :=
| Returns (a : A)
| Panics (p : panic).
Arguments Returns {A} a.
Arguments Panics {A} p.

(** ** compute API resources (the fields the code reads) *)

Record AccessConfig := mkAccessConfig { NatIP : string }.
Record AliasIpRange := mkAliasIpRange { IpCidrRange : string }.

Record NetworkInterface := mkNetworkInterface {
  NetworkIP : string;
  AccessConfigs : list AccessConfig;
  AliasIpRanges : list AliasIpRange
}.

Record Instance := mkInstance {
  Name : string;
  NetworkInterfaces : list NetworkInterface
}.

(** ** Configuration message *)

(** Modelled from the spec: the generated protobuf type [Instances] and its
    nested [Instances_NetworkInterface] are not part of the source file.  The
    spec's AddressingRequest has an optional interface selection (an index and
    an addressing mode PRIVATE / PUBLIC / ALIAS) and a flag selecting
    DNS-based resolution.  The records below hold what the getters used by
    the code return; a nil message is the record with no interface and the
    flag unset.  The Go enumeration is an [int32], so a value outside the
    three named ones can reach the [switch]: it is [Instances_NetworkInterface_other]. *)
Inductive Instances_NetworkInterface_IPType :=
| Instances_NetworkInterface_PRIVATE
| Instances_NetworkInterface_PUBLIC
| Instances_NetworkInterface_ALIAS
| Instances_NetworkInterface_other.

Record Instances_NetworkInterface := mkNI {
  GetIndex : Z;
  GetIpType : Instances_NetworkInterface_IPType
}.

Record Instances := mkInstancesPb {
  GetNetworkInterface : option Instances_NetworkInterface;
  GetUseDnsToResolve : bool
}.

(** The external DNS resolver ([dnsRes.Resolver]); only its [Resolve] method
    is used. *)
Record Resolver := mkResolver {
  Resolver_Resolve : string → Z → option IP * option error
}.

(** ** The logger

    [logger.Logger] is external; a call is recorded with its format string
    and its arguments, unformatted. *)
Inductive LogEntry :=
| Infof (format : string) (args : list string)
| Errorf (format : string) (args : list string)
| Debugf (format : string) (args : list string).

(** ** instancesProvider: the cache store *)

Record instancesProvider := mkProvider {
  project : string;
  thisInstance : string;
  l : list LogEntry;
  names : list string;
  cache : gmap string Instance
}.

(** [get] returns the resource cached under [name] (nil when absent). *)
Definition get (ip : instancesProvider) (name : string) : option Instance :=
  cache ip !! name.

(** [list] returns a copy of the names ([append([]string{}, ip.names...)]).
    It is [list_] here, [list] being the type of lists. *)
Definition list_ (ip : instancesProvider) : list string :=
  [] ++ names ip.

(** ** The inventory source *)

Record Zone := mkZone { Zone_Name : string }.

(** What the Google client library answers during one call of
    [listInstances]. *)
Record ComputeAPI := mkAPI {
  DefaultClient : option error;
  compute_New : option error;
  Zones_List : string → list Zone + error;
  Instances_List : string → string → list Instance + error
}.

Fixpoint listInstances_zones (api : ComputeAPI) (project : string)
    (zones : list Zone) (result : list Instance) : list Instance + error :=
  match zones with
  | [] => inl result
  | zone :: rest =>
      match Instances_List api project (Zone_Name zone) with
      | inr err => inr err
      | inl items => listInstances_zones api project rest (result ++ items)
      end
  end.

Definition listInstances (api : ComputeAPI) (project : string)
    : list Instance + error :=
  match DefaultClient api with
  | Some err => inr err
  | None =>
      match compute_New api with
      | Some err => inr err
      | None =>
          match Zones_List api project with
          | inr err => inr err
          | inl zonesList => listInstances_zones api project zonesList []
          end
      end
  end.

(** ** expand: one refresh cycle *)

(** The [for _, ins := range computeInstances] loop, threading the map that
    is updated in place and the local slice [result]. *)
Fixpoint expand_loop (thisInstance : string) (computeInstances : list Instance)
    (cache : gmap string Instance) (result : list string)
    : gmap string Instance * list string :=
  match computeInstances with
  | [] => (cache, result)
  | ins :: rest =>
      if decide (Name ins = thisInstance)
      then expand_loop thisInstance rest cache result
      else expand_loop thisInstance rest (<[Name ins := ins]> cache)
                       (result ++ [Name ins])
  end.

Definition expand (api : ComputeAPI) (ip : instancesProvider)
    : instancesProvider :=
  let l1 := l ip ++ [Infof "gce.instances.expand: expanding GCE targets" []] in
  match listInstances api (project ip) with
  | inr err =>
      {| project := project ip; thisInstance := thisInstance ip;
         l := l1 ++ [Errorf "gce.instances.expand: error while getting list of all instances: %v" [err]];
         names := names ip; cache := cache ip |}
  | inl computeInstances =>
      let '(cache', result) :=
        expand_loop (thisInstance ip) computeInstances (cache ip) [] in
      {| project := project ip; thisInstance := thisInstance ip;
         l := l1 ++ [Debugf "Expanded target list: %q" result];
         names := result; cache := cache' |}
  end.

(** [refresh_cycles] runs the background goroutine's successive calls of
    [expand], one per answer of the inventory source. *)
Definition refresh_cycles (apis : list ComputeAPI) (ip : instancesProvider)
    : instancesProvider :=
  foldl (λ s api, expand api s) ip apis.

(** ** The singleton guard *)

(** The GCE metadata server, as [initGlobalInstancesProvider] consults it. *)
Record Metadata := mkMetadata {
  OnGCE : bool;
  InstanceName : string * option error
}.

(** [initGlobalInstancesProvider] takes the current value of the global
    [globalInstancesProvider] and returns its new value with the error.  The
    goroutine it starts is the caller of [expand]: see [refresh_cycles]. *)
Definition initGlobalInstancesProvider (md : Metadata)
    (globalInstancesProvider : option instancesProvider)
    (project : string) (l : list LogEntry)
    : option instancesProvider * option error :=
  match globalInstancesProvider with
  | Some _ => (globalInstancesProvider, None)
  | None =>
      let mk thisInstance l :=
        {| project := project; thisInstance := thisInstance; l := l;
           names := []; cache := ∅ |} in
      if OnGCE md then
        match InstanceName md with
        | (_, Some err) =>
            (None, Some ("initGlobalInstancesProvider: error while getting current instance name: " +:+ err))
        | (thisInstance, None) =>
            (Some (mk thisInstance
                     (l ++ [Infof "initGlobalInstancesProvider: this instance: %s" [thisInstance]])),
             None)
        end
      else (Some (mk "" l), None)
  end.

(** ** instances: the resolution facade *)

Record instances := mkInstances {
  pb : Instances;
  r : option Resolver
}.

Definition newInstances (md : Metadata)
    (globalInstancesProvider : option instancesProvider)
    (project : string) (ipb : Instances) (globalResolver : option Resolver)
    (l : list LogEntry)
    : option instancesProvider * (option instances * option error) :=
  if bool_decide (GetNetworkInterface ipb ≠ None) && GetUseDnsToResolve ipb then
    (globalInstancesProvider,
     (None, Some "network_intf and use_dns_to_resolve are mutually exclusive"))
  else if GetUseDnsToResolve ipb && bool_decide (globalResolver = None) then
    (globalInstancesProvider,
     (None, Some "use_dns_to_resolve configured, but globalResolver is nil"))
  else
    match initGlobalInstancesProvider md globalInstancesProvider project l with
    | (g, Some err) => (g, (None, Some err))
    | (g, None) => (g, (Some {| pb := ipb; r := globalResolver |}, None))
    end.

(** [List] reads the global provider, which is nil before the first
    successful [newInstances]. *)
Definition List (globalInstancesProvider : option instancesProvider)
    (i : instances) : outcome (list string) :=
  match globalInstancesProvider with
  | None => Panics nil_dereference
  | Some ip => Returns (list_ ip)
  end.

(** Slice indexing [s[i]] with a Go [int]: anything outside
    [0 <= i < len(s)] panics. *)
Definition slice_index {A} (s : list A) (i : Z) : outcome A :=
  if (i <? 0) then Panics (index_out_of_range i (length s))
  else match s !! Z.to_nat i with
       | Some x => Returns x
       | None => Panics (index_out_of_range i (length s))
       end.

(** The interface index and the address type [Resolve] works with: the
    defaults [0] and [PRIVATE], overridden when a network interface is
    configured. *)
Definition selection (pb : Instances) : Z * Instances_NetworkInterface_IPType :=
  match GetNetworkInterface pb with
  | Some ni => (GetIndex ni, GetIpType ni)
  | None => (0, Instances_NetworkInterface_PRIVATE)
  end.

Section Resolve.

(** [net.ParseIP] and [net.ParseCIDR] belong to the Go standard library;
    [Resolve] is embedded over any pair of them.  [ParseCIDR] returns the
    address, the network and the error, as in Go.  Delegating to a nil
    resolver, which [newInstances] rules out, is a nil dereference. *)
Variable ParseIP : string → option IP.
Variable ParseCIDR : string → option IP * option IPNet * option error.

Definition Resolve (globalInstancesProvider : option instancesProvider)
    (i : instances) (name : string) (ipVer : Z)
    : outcome (option IP * option error) :=
  if GetUseDnsToResolve (pb i) then
    match r i with
    | None => Panics nil_dereference
    | Some res => Returns (Resolver_Resolve res name ipVer)
    end
  else
  match globalInstancesProvider with
  | None => Panics nil_dereference
  | Some gp =>
  match get gp name with
  | None =>
      Returns (None, Some ("gce.instances.resolve(" +:+ name +:+ "): instance not in in-memory GCE instances database"))
  | Some ins =>
      let '(niIndex, ipType) := selection (pb i) in
      if Z.of_nat (length (NetworkInterfaces ins)) <=? niIndex then
        Returns (None, Some ("gce.instances.resolve(" +:+ name +:+ "): no network interface at index: " +:+ pretty niIndex))
      else
      match slice_index (NetworkInterfaces ins) niIndex with
      | Panics p => Panics p
      | Returns intf =>
          match ipType with
          | Instances_NetworkInterface_PRIVATE =>
              Returns (ParseIP (NetworkIP intf), None)
          | Instances_NetworkInterface_PUBLIC =>
              match AccessConfigs intf with
              | [] =>
                  Returns (None, Some ("gce.instances.resolve(" +:+ name +:+ "): no access config, instance most likely doesn't have a public IP"))
              | ac0 :: _ => Returns (ParseIP (NatIP ac0), None)
              end
          | Instances_NetworkInterface_ALIAS =>
              match AliasIpRanges intf with
              | [] =>
                  Returns (None, Some ("gce.instances.resolve(" +:+ name +:+ "): no alias IP range"))
              | ar0 :: _ =>
                  match ParseIP (IpCidrRange ar0) with
                  | Some ip => Returns (Some ip, None)
                  | None =>
                      let '(ip, _, err) := ParseCIDR (IpCidrRange ar0) in
                      Returns (ip, err)
                  end
              end
          | Instances_NetworkInterface_other =>
              Returns (None, Some ("gce.instances.resolve(" +:+ name +:+ "): unknown IP type for network interface"))
          end
      end
  end
  end.

End Resolve.

(** ** The IPv4 fragment of Go's [net.ParseIP] and [net.ParseCIDR]

    Used to run [Resolve] on concrete records.  It follows the text parser of
    the Go standard library for dotted-decimal addresses ([dtoi],
    [parseIPv4], [CIDRMask], [IP.Mask]); text containing a colon (IPv6) is
    outside the fragment and is not parsed. *)
Module GoNet.

Definition big : Z := 0xFFFFFF.

Definition is_digit (c : ascii) : bool :=
  let n := Z.of_nat (nat_of_ascii c) in (48 <=? n) && (n <=? 57).

(** [dtoi]: decimal to integer.  Returns the number, the characters
    consumed, success, and the unread rest of the text. *)
Fixpoint dtoi_loop (s : string) (n i : Z) : Z * Z * bool * string :=
  match s with
  | String c rest =>
      if is_digit c then
        let n' := n * 10 + (Z.of_nat (nat_of_ascii c) - 48) in
        if big <=? n' then (big, i, false, s)
        else dtoi_loop rest n' (i + 1)
      else if i =? 0 then (0, 0, false, s) else (n, i, true, s)
  | EmptyString => if i =? 0 then (0, 0, false, s) else (n, i, true, s)
  end.

Definition dtoi (s : string) : Z * Z * bool * string := dtoi_loop s 0 0.

Definition v4InV6Prefix : list Z := [0; 0; 0; 0; 0; 0; 0; 0; 0; 0; 255; 255].

Definition IPv4 (a b c d : Z) : IP := v4InV6Prefix ++ [a; b; c; d].

(** The loop of [parseIPv4] over the octets still to read; [i] is the
    octet's position and [p] the octets read so far. *)
Fixpoint parseIPv4_loop (todo : nat) (i : Z) (s : string) (p : list Z)
    : option (list Z * string) :=
  match todo with
  | O => Some (p, s)
  | S todo' =>
      match s with
      | EmptyString => None
      | String c rest =>
          let after_dot :=
            if 0 <? i
            then (if Ascii.eqb c "."%char then Some rest else None)
            else Some s in
          match after_dot with
          | None => None
          | Some s1 =>
              match dtoi s1 with
              | (n, _, ok, s2) =>
                  if negb ok || (255 <? n) then None
                  else parseIPv4_loop todo' (i + 1) s2 (p ++ [n])
              end
          end
      end
  end.

Definition parseIPv4 (s : string) : option IP :=
  match parseIPv4_loop 4 0 s [] with
  | Some ([a; b; c; d], EmptyString) => Some (IPv4 a b c d)
  | _ => None
  end.

Fixpoint ParseIP_scan (s rest : string) : option IP :=
  match rest with
  | EmptyString => None
  | String c rest' =>
      if Ascii.eqb c "."%char then parseIPv4 s
      else if Ascii.eqb c ":"%char then None
      else ParseIP_scan s rest'
  end.

Definition ParseIP (s : string) : option IP := ParseIP_scan s s.

(** [CIDRMask ones 32]. *)
Fixpoint CIDRMask_loop (bytes : nat) (n : Z) : list Z :=
  match bytes with
  | O => []
  | S bytes' =>
      if 8 <=? n then 255 :: CIDRMask_loop bytes' (n - 8)
      else Z.land (Z.lnot (Z.shiftr 255 n)) 255 :: CIDRMask_loop bytes' 0
  end.

Definition CIDRMask (ones : Z) : list Z := CIDRMask_loop 4 ones.

(** [IP.To4]: the 4-byte form of an IPv4 address. *)
Definition To4 (ip : IP) : option IP :=
  if decide (length ip = 4%nat) then Some ip
  else if decide (length ip = 16%nat ∧ take 12 ip = v4InV6Prefix)
       then Some (drop 12 ip)
       else None.

(** [IP.Mask] with a 4-byte mask. *)
Definition Mask (ip : IP) (mask : list Z) : option IP :=
  match To4 ip with
  | Some ip4 => Some (zip_with Z.land ip4 mask)
  | None => None
  end.

(** Splits at the first slash ([byteIndex] and the two slices). *)
Fixpoint split_slash (s : string) : option (string * string) :=
  match s with
  | EmptyString => None
  | String c rest =>
      if Ascii.eqb c "/"%char then Some (EmptyString, rest)
      else match split_slash rest with
           | Some (addr, mask) => Some (String c addr, mask)
           | None => None
           end
  end.

Definition ParseError (s : string) : error := "invalid CIDR address: " +:+ s.

Definition ParseCIDR (s : string) : option IP * option IPNet * option error :=
  match split_slash s with
  | None => (None, None, Some (ParseError s))
  | Some (addr, mask) =>
      match parseIPv4 addr, dtoi mask with
      | Some ip, (n, _, true, EmptyString) =>
          if (n <? 0) || (32 <? n) then (None, None, Some (ParseError s))
          else
            let m := CIDRMask n in
            (Some ip,
             match Mask ip m with
             | Some net => Some {| IPNet_IP := net; IPNet_Mask := m |}
             | None => None
             end,
             None)
      | _, _ => (None, None, Some (ParseError s))
      end
  end.

(** [IP.Equal]: the same address, an IPv4 address being equal to itself in
    the 4-byte and in the 16-byte form. *)
Definition Equal (ip x : IP) : bool :=
  match To4 ip, To4 x with
  | Some a, Some b => bool_decide (a = b)
  | _, _ => bool_decide (ip = x)
  end.

End GoNet.

(** ** Fixtures: a small inventory *)

Definition vm1 : Instance :=
  {| Name := "vm-1";
     NetworkInterfaces :=
       [ {| NetworkIP := "10.0.0.5";
            AccessConfigs := [ {| NatIP := "34.1.2.3" |} ];
            AliasIpRanges := [ {| IpCidrRange := "10.1.2.0/24" |} ] |} ] |}.

Definition vm2 : Instance :=
  {| Name := "vm-2";
     NetworkInterfaces :=
       [ {| NetworkIP := "10.0.0.6";
            AccessConfigs := [];
            AliasIpRanges := [ {| IpCidrRange := "10.1.2.9" |} ] |};
         {| NetworkIP := "none";
            AccessConfigs := [ {| NatIP := "" |} ];
            AliasIpRanges := [ {| IpCidrRange := "10.1.2.9/24" |} ] |} ] |}.

Definition prober : Instance :=
  {| Name := "prober"; NetworkInterfaces := [] |}.

(** An inventory source with one zone holding [items]. *)
Definition api_ok (items : list Instance) : ComputeAPI :=
  {| DefaultClient := None; compute_New := None;
     Zones_List := λ _, inl [ {| Zone_Name := "us-central1-a" |} ];
     Instances_List := λ _ _, inl items |}.

(** An inventory source whose zone listing fails. *)
Definition api_down : ComputeAPI :=
  {| DefaultClient := None; compute_New := None;
     Zones_List := λ _, inr "googleapi: Error 503";
     Instances_List := λ _ _, inl [] |}.

Definition on_gce : Metadata :=
  {| OnGCE := true; InstanceName := ("prober", None) |}.

(** The provider as [initGlobalInstancesProvider] creates it on the machine
    [prober]. *)
Definition provider0 : instancesProvider :=
  {| project := "test-project"; thisInstance := "prober";
     l := [Infof "initGlobalInstancesProvider: this instance: %s" ["prober"]];
     names := []; cache := ∅ |}.

Definition provider1 : instancesProvider :=
  expand (api_ok [vm1; prober; vm2]) provider0.

Definition facade (ni : option Instances_NetworkInterface) : instances :=
  {| pb := {| GetNetworkInterface := ni; GetUseDnsToResolve := false |};
     r := None |}.

(** The store invariant: every listed name is a key of the map. *)
Definition names_cached (ip : instancesProvider) : Prop :=
  ∀ n, n ∈ list_ ip → is_Some (get ip n).

(** The store after two successful cycles, the second of which no longer
    reports [vm1]. *)
Definition provider_after_removal : instancesProvider :=
  refresh_cycles [api_ok [vm1; vm2]; api_ok [vm2]] provider0.

Definition ni_cfg (index : Z) (ipType : Instances_NetworkInterface_IPType)
    : option Instances_NetworkInterface :=
  Some {| GetIndex := index; GetIpType := ipType |}.

(** ALIAS mode: the claim as the spec words it.  When the first alias range
    is not a bare address and parses as a CIDR, the answer is the network
    address of that CIDR. *)
Definition alias_resolves_to_network_address (gp : instancesProvider)
    (i : instances) (name : string) (ipVer : Z) (ipCidrRange : string) : Prop :=
  GoNet.ParseIP ipCidrRange = None →
  ∀ a net, GoNet.ParseCIDR ipCidrRange = (Some a, Some net, None) →
  ∃ x, Resolve GoNet.ParseIP GoNet.ParseCIDR (Some gp) i name ipVer
       = Returns (Some x, None)
       ∧ GoNet.Equal x (IPNet_IP net) = true.

Definition any_resolver : Resolver :=
  {| Resolver_Resolve := λ _ _, (None, Some "no such host") |}.

(** An inventory source with two zones: the first holds [a], the second
    answers [b]. *)
Definition api_two_zones (a : list Instance) (b : list Instance + error)
    : ComputeAPI :=
  {| DefaultClient := None; compute_New := None;
     Zones_List := λ _, inl [ {| Zone_Name := "zone-a" |}; {| Zone_Name := "zone-b" |} ];
     Instances_List := λ _ zone, if decide (zone = "zone-a") then inl a else b |}.

(** A newer record of the machine [vm-1]. *)
Definition vm1_moved : Instance :=
  {| Name := "vm-1";
     NetworkInterfaces :=
       [ {| NetworkIP := "10.0.0.9"; AccessConfigs := []; AliasIpRanges := [] |} ] |}.

(** * Go's parsers on sample text *)

Example ParseIP_private : GoNet.ParseIP "10.0.0.5" = Some (GoNet.IPv4 10 0 0 5).
Proof. reflexivity. Qed.

Example ParseIP_rejects_cidr : GoNet.ParseIP "10.1.2.0/24" = None.
Proof. reflexivity. Qed.

Example ParseIP_rejects_text : GoNet.ParseIP "not-an-address" = None.
Proof. reflexivity. Qed.

Example ParseCIDR_aligned :
  GoNet.ParseCIDR "10.1.2.0/24"
  = (Some (GoNet.IPv4 10 1 2 0),
     Some {| IPNet_IP := [10; 1; 2; 0]; IPNet_Mask := [255; 255; 255; 0] |},
     None).
Proof. reflexivity. Qed.

Example ParseCIDR_host_bits :
  GoNet.ParseCIDR "10.1.2.9/24"
  = (Some (GoNet.IPv4 10 1 2 9),
     Some {| IPNet_IP := [10; 1; 2; 0]; IPNet_Mask := [255; 255; 255; 0] |},
     None).
Proof. reflexivity. Qed.

Example ParseCIDR_error :
  GoNet.ParseCIDR "10.1.2.0/33" = (None, None, Some "invalid CIDR address: 10.1.2.0/33").
Proof. reflexivity. Qed.

Example init_on_gce :
  initGlobalInstancesProvider on_gce None "test-project" [] = (Some provider0, None).
Proof. reflexivity. Qed.

Example provider1_names : list_ provider1 = ["vm-1"; "vm-2"].
Proof. reflexivity. Qed.

Example provider1_get : get provider1 "vm-2" = Some vm2 ∧ get provider1 "prober" = None.
Proof. split; reflexivity. Qed.

(** * Properties of the refresh cycle *)

(** [expand] never changes the project or the self-identity. *)
Lemma expand_project api ip : project (expand api ip) = project ip.
Proof.
  unfold expand. destruct (listInstances api (project ip)); [|done].
  by destruct (expand_loop _ _ _ _).
Qed.

Lemma expand_thisInstance api ip : thisInstance (expand api ip) = thisInstance ip.
Proof.
  unfold expand. destruct (listInstances api (project ip)); [|done].
  by destruct (expand_loop _ _ _ _).
Qed.

Lemma refresh_cycles_snoc apis api ip :
  refresh_cycles (apis ++ [api]) ip = expand api (refresh_cycles apis ip).
Proof. unfold refresh_cycles. by rewrite foldl_app. Qed.

Lemma refresh_cycles_thisInstance apis ip :
  thisInstance (refresh_cycles apis ip) = thisInstance ip.
Proof.
  induction apis as [|api apis IH] using rev_ind; [done|].
  by rewrite refresh_cycles_snoc, expand_thisInstance.
Qed.

Lemma refresh_cycles_project apis ip :
  project (refresh_cycles apis ip) = project ip.
Proof.
  induction apis as [|api apis IH] using rev_ind; [done|].
  by rewrite refresh_cycles_snoc, expand_project.
Qed.

(** What a successful and a failed cycle leave in the store. *)
Lemma expand_ok api ip computeInstances :
  listInstances api (project ip) = inl computeInstances →
  names (expand api ip)
    = (expand_loop (thisInstance ip) computeInstances (cache ip) []).2
  ∧ cache (expand api ip)
    = (expand_loop (thisInstance ip) computeInstances (cache ip) []).1.
Proof.
  intros Hfetch. unfold expand. rewrite Hfetch.
  by destruct (expand_loop _ _ _ _).
Qed.

Lemma expand_err api ip err :
  listInstances api (project ip) = inr err →
  names (expand api ip) = names ip ∧ cache (expand api ip) = cache ip.
Proof. intros Hfetch. unfold expand. by rewrite Hfetch. Qed.

(** The loop only appends names other than the self-identity. *)
Lemma expand_loop_names this computeInstances c result :
  (expand_loop this computeInstances c result).2
  = result ++ filter (λ n, n ≠ this) (Name <$> computeInstances).
Proof.
  revert c result.
  induction computeInstances as [|ins rest IH]; intros c result; simpl.
  - by rewrite app_nil_r.
  - destruct (decide (Name ins = this)) as [Heq|Hne].
    + rewrite IH, filter_cons_False; [done | by intros ?].
    + rewrite IH, filter_cons_True by done. by rewrite <- app_assoc.
Qed.

(** The loop only adds keys to the map: a key present before is present
    after. *)
Lemma expand_loop_keeps this computeInstances c result n :
  is_Some (c !! n) →
  is_Some ((expand_loop this computeInstances c result).1 !! n).
Proof.
  revert c result.
  induction computeInstances as [|ins rest IH]; intros c result Hn; simpl.
  - done.
  - destruct (decide (Name ins = this)); apply IH; [done|].
    rewrite lookup_insert. case_decide; [by eexists | done].
Qed.

(** Every name the loop appends is a key of the resulting map. *)
Lemma expand_loop_cached this computeInstances c result n :
  n ∈ filter (λ n, n ≠ this) (Name <$> computeInstances) →
  is_Some ((expand_loop this computeInstances c result).1 !! n).
Proof.
  revert c result.
  induction computeInstances as [|ins rest IH]; intros c result; simpl.
  - rewrite filter_nil. by intros ?%elem_of_nil.
  - destruct (decide (Name ins = this)) as [Heq|Hne].
    + rewrite filter_cons_False by (by intros ?). apply IH.
    + rewrite filter_cons_True by done.
      intros [->|Hin]%elem_of_cons; [|by apply IH].
      apply expand_loop_keeps. rewrite lookup_insert_eq. by eexists.
Qed.

Lemma expand_names_cached api ip :
  names_cached ip → names_cached (expand api ip).
Proof.
  intros Hinv n. unfold list_, get.
  destruct (listInstances api (project ip)) as [insts|err] eqn:Hfetch.
  - destruct (expand_ok _ _ _ Hfetch) as [-> ->].
    rewrite expand_loop_names. simpl. apply expand_loop_cached.
  - destruct (expand_err _ _ _ Hfetch) as [-> ->]. apply Hinv.
Qed.

Lemma refresh_cycles_names_cached apis ip :
  names_cached ip → names_cached (refresh_cycles apis ip).
Proof.
  intros Hinv. induction apis as [|api apis IH] using rev_ind; [done|].
  rewrite refresh_cycles_snoc. by apply expand_names_cached.
Qed.

Lemma init_names_cached md project log ip0 :
  initGlobalInstancesProvider md None project log = (Some ip0, None) →
  names ip0 = [] ∧ cache ip0 = ∅.
Proof.
  unfold initGlobalInstancesProvider.
  destruct (OnGCE md); [destruct (InstanceName md) as [this [err|]]|];
    intros [= <-]; done.
Qed.

(** C1, as stated, fails: after a machine disappears from the inventory its
    name is no longer listed but its record is still a key of the map, so the
    listed names are not exactly the keys. *)
Lemma C1_stale_key_counterexample :
  ¬ (∀ n, n ∈ list_ provider_after_removal
          ↔ is_Some (get provider_after_removal n)).
Proof.
  intros Hclaim. destruct (Hclaim "vm-1") as [_ Hlisted].
  assert (Hkey : is_Some (get provider_after_removal "vm-1"))
    by (exists vm1; reflexivity).
  apply Hlisted in Hkey.
  change (list_ provider_after_removal) with ["vm-2"] in Hkey.
  apply list_elem_of_singleton in Hkey. discriminate Hkey.
Qed.

(** C1 (amended): in every state of the cache store reached from the freshly
    initialised provider by any sequence of refresh cycles, every name
    returned by [list] maps to a record in the mapping read by [get]. *)
Theorem C1_listed_names_are_cached md project log ip0 apis n :
  initGlobalInstancesProvider md None project log = (Some ip0, None) →
  n ∈ list_ (refresh_cycles apis ip0) →
  is_Some (get (refresh_cycles apis ip0) n).
Proof.
  intros Hinit. apply refresh_cycles_names_cached.
  destruct (init_names_cached _ _ _ _ Hinit) as [Hnames _].
  intros m. unfold list_. rewrite Hnames. by intros ?%elem_of_nil.
Qed.

Lemma C1_listed_names_are_cached_witness :
  initGlobalInstancesProvider on_gce None "test-project" [] = (Some provider0, None)
  ∧ "vm-2" ∈ list_ (refresh_cycles [api_ok [vm1; vm2]; api_down; api_ok [vm2]] provider0)
  ∧ is_Some (get (refresh_cycles [api_ok [vm1; vm2]; api_down; api_ok [vm2]] provider0) "vm-2").
Proof.
  assert (Hinit : initGlobalInstancesProvider on_gce None "test-project" []
                  = (Some provider0, None)) by reflexivity.
  assert (Hin : "vm-2" ∈ list_ (refresh_cycles
                  [api_ok [vm1; vm2]; api_down; api_ok [vm2]] provider0))
    by (vm_compute; left).
  split; [exact Hinit|]. split; [exact Hin|].
  exact (C1_listed_names_are_cached on_gce "test-project" [] provider0
           [api_ok [vm1; vm2]; api_down; api_ok [vm2]] "vm-2" Hinit Hin).
Defined.

(** C6: when the inventory fetch of a refresh cycle fails, the cycle leaves
    the name list and the name-to-record mapping as they were, so [list],
    [get], [List] and [Resolve] answer as before the failed cycle. *)
Theorem C6_failed_refresh_keeps_store api ip err :
  listInstances api (project ip) = inr err →
  names (expand api ip) = names ip
  ∧ cache (expand api ip) = cache ip
  ∧ list_ (expand api ip) = list_ ip
  ∧ (∀ name, get (expand api ip) name = get ip name)
  ∧ (∀ i, List (Some (expand api ip)) i = List (Some ip) i)
  ∧ (∀ ParseIP ParseCIDR i name ipVer,
       Resolve ParseIP ParseCIDR (Some (expand api ip)) i name ipVer
       = Resolve ParseIP ParseCIDR (Some ip) i name ipVer).
Proof.
  intros Hfetch. destruct (expand_err _ _ _ Hfetch) as [Hnames Hcache].
  assert (Hget : ∀ name, get (expand api ip) name = get ip name)
    by (intros name; unfold get; by rewrite Hcache).
  assert (Hlist : list_ (expand api ip) = list_ ip)
    by (unfold list_; by rewrite Hnames).
  repeat split; try done.
  - intros i. unfold List. by rewrite Hlist.
  - intros ParseIP ParseCIDR i name ipVer. unfold Resolve. by rewrite Hget.
Qed.

Lemma C6_failed_refresh_keeps_store_witness :
  listInstances api_down (project provider1) = inr "googleapi: Error 503"
  ∧ list_ (expand api_down provider1) = ["vm-1"; "vm-2"]
  ∧ get (expand api_down provider1) "vm-1" = Some vm1.
Proof.
  assert (Hfetch : listInstances api_down (project provider1)
                   = inr "googleapi: Error 503") by reflexivity.
  destruct (C6_failed_refresh_keeps_store api_down provider1 _ Hfetch)
    as (_ & _ & Hlist & Hget & _).
  split; [exact Hfetch|]. split.
  - rewrite Hlist. reflexivity.
  - rewrite Hget. reflexivity.
Defined.

(** A failed cycle is nevertheless visible in the log. *)
Example failed_refresh_is_logged :
  l (expand api_down provider0)
  = l provider0
    ++ [Infof "gce.instances.expand: expanding GCE targets" [];
        Errorf "gce.instances.expand: error while getting list of all instances: %v"
               ["googleapi: Error 503"]].
Proof. reflexivity. Qed.

(** C7: after any sequence of refresh cycles whose last one succeeds, the
    configured self-identity is not among the names returned by [list],
    whatever the inventory reported. *)
Theorem C7_self_never_listed ip apis api computeInstances :
  listInstances api (project (refresh_cycles apis ip)) = inl computeInstances →
  thisInstance ip ∉ list_ (refresh_cycles (apis ++ [api]) ip).
Proof.
  intros Hfetch. rewrite refresh_cycles_snoc. unfold list_.
  destruct (expand_ok _ _ _ Hfetch) as [-> _].
  rewrite expand_loop_names, refresh_cycles_thisInstance. simpl.
  intros [Hne _]%list_elem_of_filter. by apply Hne.
Qed.

Lemma C7_self_never_listed_witness :
  listInstances (api_ok [vm1; prober; vm2])
                (project (refresh_cycles [api_ok [prober]; api_down] provider0))
  = inl [vm1; prober; vm2]
  ∧ "prober" ∉ list_ (refresh_cycles
                        ([api_ok [prober]; api_down] ++ [api_ok [vm1; prober; vm2]])
                        provider0).
Proof.
  assert (Hfetch : listInstances (api_ok [vm1; prober; vm2])
            (project (refresh_cycles [api_ok [prober]; api_down] provider0))
          = inl [vm1; prober; vm2]) by reflexivity.
  split; [exact Hfetch|].
  exact (C7_self_never_listed provider0 [api_ok [prober]; api_down]
           (api_ok [vm1; prober; vm2]) [vm1; prober; vm2] Hfetch).
Defined.

(** The self-identity is also absent in every state reached from the
    initial provider, failed cycles included. *)
Lemma self_not_listed_from_init md proj log ip0 apis :
  initGlobalInstancesProvider md None proj log = (Some ip0, None) →
  thisInstance ip0 ∉ list_ (refresh_cycles apis ip0).
Proof.
  intros Hinit. destruct (init_names_cached _ _ _ _ Hinit) as [Hnames _].
  induction apis as [|api apis IH] using rev_ind.
  - unfold list_. simpl. rewrite Hnames. by intros ?%elem_of_nil.
  - rewrite refresh_cycles_snoc. unfold list_ in *.
    destruct (listInstances api (project (refresh_cycles apis ip0)))
      as [insts|err] eqn:Hfetch.
    + destruct (expand_ok _ _ _ Hfetch) as [-> _].
      rewrite expand_loop_names, refresh_cycles_thisInstance. simpl.
      intros [Hne _]%list_elem_of_filter. by apply Hne.
    + destruct (expand_err _ _ _ Hfetch) as [-> _]. exact IH.
Qed.

(** * Properties of Resolve *)

Lemma slice_index_in_range {A} (s : list A) (idx : nat) (x : A) :
  s !! idx = Some x →
  (Z.of_nat (length s) <=? Z.of_nat idx) = false
  ∧ slice_index s (Z.of_nat idx) = Returns x.
Proof.
  intros Hx. split.
  - apply lookup_lt_Some in Hx. apply Z.leb_gt. lia.
  - unfold slice_index.
    destruct (Z.ltb_spec (Z.of_nat idx) 0) as [Hneg|_]; [lia|].
    by rewrite Nat2Z.id, Hx.
Qed.

Section ResolveFacts.

Variable ParseIP : string → option IP.
Variable ParseCIDR : string → option IP * option IPNet * option error.

(** Once the name is cached and the selected interface exists, [Resolve]
    is the dispatch on the address type. *)
Lemma Resolve_selected ip i name ipVer ins idx ipType intf :
  GetUseDnsToResolve (pb i) = false →
  get ip name = Some ins →
  selection (pb i) = (Z.of_nat idx, ipType) →
  NetworkInterfaces ins !! idx = Some intf →
  Resolve ParseIP ParseCIDR (Some ip) i name ipVer
  = match ipType with
    | Instances_NetworkInterface_PRIVATE =>
        Returns (ParseIP (NetworkIP intf), None)
    | Instances_NetworkInterface_PUBLIC =>
        match AccessConfigs intf with
        | [] => Returns (None, Some ("gce.instances.resolve(" +:+ name +:+ "): no access config, instance most likely doesn't have a public IP"))
        | ac0 :: _ => Returns (ParseIP (NatIP ac0), None)
        end
    | Instances_NetworkInterface_ALIAS =>
        match AliasIpRanges intf with
        | [] => Returns (None, Some ("gce.instances.resolve(" +:+ name +:+ "): no alias IP range"))
        | ar0 :: _ =>
            match ParseIP (IpCidrRange ar0) with
            | Some a => Returns (Some a, None)
            | None => Returns ((ParseCIDR (IpCidrRange ar0)).1.1,
                               (ParseCIDR (IpCidrRange ar0)).2)
            end
        end
    | Instances_NetworkInterface_other =>
        Returns (None, Some ("gce.instances.resolve(" +:+ name +:+ "): unknown IP type for network interface"))
    end.
Proof.
  intros Hdns Hget Hsel Hintf. unfold Resolve.
  rewrite Hdns, Hget, Hsel.
  destruct (slice_index_in_range _ _ _ Hintf) as [-> ->].
  destruct ipType; try done.
  destruct (AliasIpRanges intf) as [|ar0 ?]; [done|].
  destruct (ParseIP (IpCidrRange ar0)); [done|].
  by destruct (ParseCIDR (IpCidrRange ar0)) as [[? ?] ?].
Qed.

(** C3: a name that is not in the cache mapping is answered, under every
    configuration that does not delegate to DNS, with the error that the
    instance is not in the in-memory database, and with no address. *)
Theorem C3_absent_name_not_found ip i name ipVer :
  GetUseDnsToResolve (pb i) = false →
  get ip name = None →
  Resolve ParseIP ParseCIDR (Some ip) i name ipVer
  = Returns (None, Some ("gce.instances.resolve(" +:+ name +:+ "): instance not in in-memory GCE instances database")).
Proof. intros Hdns Hget. unfold Resolve. by rewrite Hdns, Hget. Qed.

(** C4: in PUBLIC mode, a selected interface without access configs gives
    the error that the instance has no access config (no public IP); with
    at least one access config the answer is the first one's NAT address,
    as [net.ParseIP] reads it, and no error. *)
Theorem C4_public_mode ip i name ipVer ins idx intf :
  GetUseDnsToResolve (pb i) = false →
  get ip name = Some ins →
  selection (pb i) = (Z.of_nat idx, Instances_NetworkInterface_PUBLIC) →
  NetworkInterfaces ins !! idx = Some intf →
  (AccessConfigs intf = [] →
     Resolve ParseIP ParseCIDR (Some ip) i name ipVer
     = Returns (None, Some ("gce.instances.resolve(" +:+ name +:+ "): no access config, instance most likely doesn't have a public IP")))
  ∧ (∀ ac0 rest, AccessConfigs intf = ac0 :: rest →
       Resolve ParseIP ParseCIDR (Some ip) i name ipVer
       = Returns (ParseIP (NatIP ac0), None)).
Proof.
  intros Hdns Hget Hsel Hintf.
  rewrite (Resolve_selected _ _ _ _ _ _ _ _ Hdns Hget Hsel Hintf).
  split; [by intros -> | by intros ac0 rest ->].
Qed.

(** C8: with no network interface configured, [Resolve] works with index 0
    and PRIVATE; and PRIVATE mode answers the private address of the
    selected interface, as [net.ParseIP] reads it, with no error whenever
    the record has an interface at the selected index. *)
Theorem C8_default_private ip i name ipVer ins :
  GetUseDnsToResolve (pb i) = false →
  get ip name = Some ins →
  (GetNetworkInterface (pb i) = None →
     selection (pb i) = (0, Instances_NetworkInterface_PRIVATE)
     ∧ Resolve ParseIP ParseCIDR (Some ip) i name ipVer
       = match NetworkInterfaces ins with
         | [] => Returns (None, Some ("gce.instances.resolve(" +:+ name +:+ "): no network interface at index: 0"))
         | intf :: _ => Returns (ParseIP (NetworkIP intf), None)
         end)
  ∧ (∀ idx intf,
       selection (pb i) = (Z.of_nat idx, Instances_NetworkInterface_PRIVATE) →
       NetworkInterfaces ins !! idx = Some intf →
       Resolve ParseIP ParseCIDR (Some ip) i name ipVer
       = Returns (ParseIP (NetworkIP intf), None)).
Proof.
  intros Hdns Hget. split.
  - intros Hni.
    assert (Hsel : selection (pb i) = (0, Instances_NetworkInterface_PRIVATE))
      by (unfold selection; by rewrite Hni).
    split; [exact Hsel|].
    destruct (NetworkInterfaces ins) as [|intf rest] eqn:Hnis.
    + unfold Resolve. by rewrite Hdns, Hget, Hsel, Hnis.
    + apply (Resolve_selected ip i name ipVer ins 0%nat _ intf Hdns Hget Hsel).
      by rewrite Hnis.
  - intros idx intf Hsel Hintf.
    apply (Resolve_selected _ _ _ _ _ _ _ _ Hdns Hget Hsel Hintf).
Qed.

(** C9: the "no network interface at index" branch guards only indexes
    that are at least the length of the interface list.  With a negative
    configured index, [Resolve] on a cached record passes the guard and
    indexes the interface list with that negative index, which is out of
    bounds. *)
Theorem C9_negative_index_reaches_indexing ip i name ipVer ins ni :
  GetUseDnsToResolve (pb i) = false →
  get ip name = Some ins →
  GetNetworkInterface (pb i) = Some ni →
  GetIndex ni < 0 →
  (Z.of_nat (length (NetworkInterfaces ins)) <=? GetIndex ni) = false
  ∧ Resolve ParseIP ParseCIDR (Some ip) i name ipVer
    = Panics (index_out_of_range (GetIndex ni) (length (NetworkInterfaces ins)))
  ∧ Resolve ParseIP ParseCIDR (Some ip) i name ipVer
    ≠ Returns (None, Some ("gce.instances.resolve(" +:+ name +:+ "): no network interface at index: " +:+ pretty (GetIndex ni))).
Proof.
  intros Hdns Hget Hni Hneg.
  assert (Hguard : (Z.of_nat (length (NetworkInterfaces ins)) <=? GetIndex ni) = false)
    by (apply Z.leb_gt; lia).
  assert (Hres : Resolve ParseIP ParseCIDR (Some ip) i name ipVer
                 = Panics (index_out_of_range (GetIndex ni)
                                              (length (NetworkInterfaces ins)))).
  { unfold Resolve, selection. rewrite Hdns, Hget, Hni, Hguard.
    unfold slice_index.
    by destruct (Z.ltb_spec (GetIndex ni) 0) as [_|Hge]; [|lia]. }
  split; [exact Hguard|]. split; [exact Hres|]. by rewrite Hres.
Qed.

(** C10: when the text that PRIVATE mode (the selected interface's private
    address) or PUBLIC mode (the first access config's NAT address) hands
    to [net.ParseIP] is not an IP literal, [Resolve] returns a nil IP
    together with a nil error. *)
Theorem C10_unparseable_address_nil_nil ip i name ipVer ins idx intf :
  GetUseDnsToResolve (pb i) = false →
  get ip name = Some ins →
  NetworkInterfaces ins !! idx = Some intf →
  (selection (pb i) = (Z.of_nat idx, Instances_NetworkInterface_PRIVATE) →
     ParseIP (NetworkIP intf) = None →
     Resolve ParseIP ParseCIDR (Some ip) i name ipVer = Returns (None, None))
  ∧ (selection (pb i) = (Z.of_nat idx, Instances_NetworkInterface_PUBLIC) →
     ∀ ac0 rest, AccessConfigs intf = ac0 :: rest →
     ParseIP (NatIP ac0) = None →
     Resolve ParseIP ParseCIDR (Some ip) i name ipVer = Returns (None, None)).
Proof.
  intros Hdns Hget Hintf. split.
  - intros Hsel Hparse.
    rewrite (Resolve_selected _ _ _ _ _ _ _ _ Hdns Hget Hsel Hintf).
    by rewrite Hparse.
  - intros Hsel ac0 rest Hacs Hparse.
    rewrite (Resolve_selected _ _ _ _ _ _ _ _ Hdns Hget Hsel Hintf).
    by rewrite Hacs, Hparse.
Qed.

(** C2 (amended): in ALIAS mode, with at least one alias range on the
    selected interface, [Resolve] first reads the first range's text as a
    bare IP address and returns that address when it parses; otherwise it
    hands the text to the CIDR parser and returns the address and the error
    that parser reports, unchanged (the network it reports is dropped). *)
Theorem C2_alias_bare_ip_then_cidr ip i name ipVer ins idx intf ar0 rest :
  GetUseDnsToResolve (pb i) = false →
  get ip name = Some ins →
  selection (pb i) = (Z.of_nat idx, Instances_NetworkInterface_ALIAS) →
  NetworkInterfaces ins !! idx = Some intf →
  AliasIpRanges intf = ar0 :: rest →
  (∀ a, ParseIP (IpCidrRange ar0) = Some a →
     Resolve ParseIP ParseCIDR (Some ip) i name ipVer = Returns (Some a, None))
  ∧ (ParseIP (IpCidrRange ar0) = None →
     ∀ a net err, ParseCIDR (IpCidrRange ar0) = (a, net, err) →
     Resolve ParseIP ParseCIDR (Some ip) i name ipVer = Returns (a, err)).
Proof.
  intros Hdns Hget Hsel Hintf Hars.
  rewrite (Resolve_selected _ _ _ _ _ _ _ _ Hdns Hget Hsel Hintf), Hars.
  split.
  - by intros a ->.
  - intros -> a net err Hcidr. by rewrite Hcidr.
Qed.

End ResolveFacts.

(** * Resolve on the fixture inventory, with Go's parsers *)

Lemma C3_absent_name_not_found_witness :
  GetUseDnsToResolve (pb (facade (ni_cfg 0 Instances_NetworkInterface_ALIAS))) = false
  ∧ get provider1 "prober" = None
  ∧ Resolve GoNet.ParseIP GoNet.ParseCIDR (Some provider1)
            (facade (ni_cfg 0 Instances_NetworkInterface_ALIAS)) "prober" 4
    = Returns (None, Some "gce.instances.resolve(prober): instance not in in-memory GCE instances database").
Proof.
  assert (Hdns : GetUseDnsToResolve
                   (pb (facade (ni_cfg 0 Instances_NetworkInterface_ALIAS))) = false)
    by reflexivity.
  assert (Hget : get provider1 "prober" = None) by reflexivity.
  split; [exact Hdns|]. split; [exact Hget|].
  exact (C3_absent_name_not_found GoNet.ParseIP GoNet.ParseCIDR provider1
           (facade (ni_cfg 0 Instances_NetworkInterface_ALIAS)) "prober" 4 Hdns Hget).
Defined.

Lemma C4_public_mode_witness :
  NetworkInterfaces vm1 !! 0%nat
  = Some {| NetworkIP := "10.0.0.5";
            AccessConfigs := [ {| NatIP := "34.1.2.3" |} ];
            AliasIpRanges := [ {| IpCidrRange := "10.1.2.0/24" |} ] |}
  ∧ Resolve GoNet.ParseIP GoNet.ParseCIDR (Some provider1)
            (facade (ni_cfg 0 Instances_NetworkInterface_PUBLIC)) "vm-1" 4
    = Returns (Some (GoNet.IPv4 34 1 2 3), None).
Proof.
  split; [reflexivity|].
  exact (proj2 (C4_public_mode GoNet.ParseIP GoNet.ParseCIDR provider1
                  (facade (ni_cfg 0 Instances_NetworkInterface_PUBLIC)) "vm-1" 4
                  vm1 0%nat _ eq_refl eq_refl eq_refl eq_refl)
               {| NatIP := "34.1.2.3" |} [] eq_refl).
Defined.

(** PUBLIC mode on an interface without access configs. *)
Example public_without_access_config :
  Resolve GoNet.ParseIP GoNet.ParseCIDR (Some provider1)
          (facade (ni_cfg 0 Instances_NetworkInterface_PUBLIC)) "vm-2" 4
  = Returns (None, Some "gce.instances.resolve(vm-2): no access config, instance most likely doesn't have a public IP").
Proof. reflexivity. Qed.

Lemma C8_default_private_witness :
  GetNetworkInterface (pb (facade None)) = None
  ∧ get provider1 "vm-1" = Some vm1
  ∧ Resolve GoNet.ParseIP GoNet.ParseCIDR (Some provider1) (facade None) "vm-1" 4
    = Returns (Some (GoNet.IPv4 10 0 0 5), None).
Proof.
  split; [reflexivity|]. split; [reflexivity|].
  exact (proj2 (proj1 (C8_default_private GoNet.ParseIP GoNet.ParseCIDR provider1
                         (facade None) "vm-1" 4 vm1 eq_refl eq_refl)
                      eq_refl)).
Defined.

(** A record without interfaces, under the default configuration. *)
Example default_without_interface :
  Resolve GoNet.ParseIP GoNet.ParseCIDR
          (Some (expand (api_ok [ {| Name := "bare"; NetworkInterfaces := [] |} ]) provider0))
          (facade None) "bare" 4
  = Returns (None, Some "gce.instances.resolve(bare): no network interface at index: 0").
Proof. reflexivity. Qed.

(** An index past the last interface is reported with its value. *)
Example index_past_the_end :
  Resolve GoNet.ParseIP GoNet.ParseCIDR (Some provider1)
          (facade (ni_cfg 2 Instances_NetworkInterface_PRIVATE)) "vm-2" 4
  = Returns (None, Some "gce.instances.resolve(vm-2): no network interface at index: 2").
Proof. reflexivity. Qed.

Lemma C9_negative_index_reaches_indexing_witness :
  GetIndex {| GetIndex := -1; GetIpType := Instances_NetworkInterface_PRIVATE |} < 0
  ∧ Resolve GoNet.ParseIP GoNet.ParseCIDR (Some provider1)
            (facade (ni_cfg (-1) Instances_NetworkInterface_PRIVATE)) "vm-2" 4
    = Panics (index_out_of_range (-1) 2).
Proof.
  assert (Hneg : GetIndex {| GetIndex := -1;
                             GetIpType := Instances_NetworkInterface_PRIVATE |} < 0)
    by reflexivity.
  split; [exact Hneg|].
  exact (proj1 (proj2 (C9_negative_index_reaches_indexing
                         GoNet.ParseIP GoNet.ParseCIDR provider1
                         (facade (ni_cfg (-1) Instances_NetworkInterface_PRIVATE))
                         "vm-2" 4 vm2 _ eq_refl eq_refl eq_refl Hneg))).
Defined.

Lemma C10_unparseable_address_nil_nil_witness :
  GoNet.ParseIP "none" = None ∧ GoNet.ParseIP "" = None
  ∧ Resolve GoNet.ParseIP GoNet.ParseCIDR (Some provider1)
            (facade (ni_cfg 1 Instances_NetworkInterface_PRIVATE)) "vm-2" 4
    = Returns (None, None)
  ∧ Resolve GoNet.ParseIP GoNet.ParseCIDR (Some provider1)
            (facade (ni_cfg 1 Instances_NetworkInterface_PUBLIC)) "vm-2" 4
    = Returns (None, None).
Proof.
  split; [reflexivity|]. split; [reflexivity|]. split.
  - exact (proj1 (C10_unparseable_address_nil_nil GoNet.ParseIP GoNet.ParseCIDR
                    provider1 (facade (ni_cfg 1 Instances_NetworkInterface_PRIVATE))
                    "vm-2" 4 vm2 1%nat _ eq_refl eq_refl eq_refl)
                 eq_refl eq_refl).
  - exact (proj2 (C10_unparseable_address_nil_nil GoNet.ParseIP GoNet.ParseCIDR
                    provider1 (facade (ni_cfg 1 Instances_NetworkInterface_PUBLIC))
                    "vm-2" 4 vm2 1%nat _ eq_refl eq_refl eq_refl)
                 eq_refl {| NatIP := "" |} [] eq_refl eq_refl).
Defined.

(** C2, as stated, fails: for the alias range 10.1.2.9/24 on the second
    interface of vm-2, [Resolve] answers 10.1.2.9, the address written in the
    range, and not the network address 10.1.2.0. *)
Lemma C2_network_address_counterexample :
  (AliasIpRanges <$> NetworkInterfaces vm2 !! 1%nat)
  = Some [ {| IpCidrRange := "10.1.2.9/24" |} ]
  ∧ Resolve GoNet.ParseIP GoNet.ParseCIDR (Some provider1)
            (facade (ni_cfg 1 Instances_NetworkInterface_ALIAS)) "vm-2" 4
    = Returns (Some (GoNet.IPv4 10 1 2 9), None)
  ∧ ¬ alias_resolves_to_network_address provider1
        (facade (ni_cfg 1 Instances_NetworkInterface_ALIAS)) "vm-2" 4 "10.1.2.9/24".
Proof.
  split; [reflexivity|]. split; [reflexivity|].
  intros Hclaim.
  destruct (Hclaim eq_refl _ _ eq_refl) as (x & Hres & Heq).
  change (Resolve _ _ _ _ _ _)
    with (@Returns (option IP * option error) (Some (GoNet.IPv4 10 1 2 9), None))
    in Hres.
  injection Hres as <-. discriminate Heq.
Qed.

Lemma C2_alias_bare_ip_then_cidr_witness :
  GoNet.ParseIP "10.1.2.9/24" = None
  ∧ GoNet.ParseCIDR "10.1.2.9/24"
    = (Some (GoNet.IPv4 10 1 2 9),
       Some {| IPNet_IP := [10; 1; 2; 0]; IPNet_Mask := [255; 255; 255; 0] |},
       None)
  ∧ Resolve GoNet.ParseIP GoNet.ParseCIDR (Some provider1)
            (facade (ni_cfg 1 Instances_NetworkInterface_ALIAS)) "vm-2" 4
    = Returns (Some (GoNet.IPv4 10 1 2 9), None).
Proof.
  split; [reflexivity|]. split; [reflexivity|].
  exact (proj2 (C2_alias_bare_ip_then_cidr GoNet.ParseIP GoNet.ParseCIDR provider1
                  (facade (ni_cfg 1 Instances_NetworkInterface_ALIAS)) "vm-2" 4
                  vm2 1%nat _ {| IpCidrRange := "10.1.2.9/24" |} []
                  eq_refl eq_refl eq_refl eq_refl eq_refl)
               eq_refl _ _ _ eq_refl).
Defined.

(** The spec's two ALIAS examples: an aligned CIDR gives its network
    address, a bare address is returned as it is. *)
Example alias_aligned_cidr :
  Resolve GoNet.ParseIP GoNet.ParseCIDR (Some provider1)
          (facade (ni_cfg 0 Instances_NetworkInterface_ALIAS)) "vm-1" 4
  = Returns (Some (GoNet.IPv4 10 1 2 0), None).
Proof. reflexivity. Qed.

Example alias_bare_address :
  Resolve GoNet.ParseIP GoNet.ParseCIDR (Some provider1)
          (facade (ni_cfg 0 Instances_NetworkInterface_ALIAS)) "vm-2" 4
  = Returns (Some (GoNet.IPv4 10 1 2 9), None).
Proof. reflexivity. Qed.

(** When neither parser accepts the text, the CIDR parser's error comes
    back with a nil address. *)
Example alias_unparseable :
  Resolve GoNet.ParseIP GoNet.ParseCIDR
          (Some (expand (api_ok [ {| Name := "odd";
                                     NetworkInterfaces :=
                                       [ {| NetworkIP := "10.0.0.7"; AccessConfigs := [];
                                            AliasIpRanges := [ {| IpCidrRange := "/24" |} ] |} ] |} ])
                        provider0))
          (facade (ni_cfg 0 Instances_NetworkInterface_ALIAS)) "odd" 4
  = Returns (None, Some "invalid CIDR address: /24").
Proof. reflexivity. Qed.

(** * Construction of the facade *)

(** The two configuration errors come before the singleton is touched. *)
Lemma newInstances_config_error md g proj ipb resolver log :
  (GetNetworkInterface ipb ≠ None ∧ GetUseDnsToResolve ipb = true)
  ∨ (GetUseDnsToResolve ipb = true ∧ resolver = None) →
  ∃ err, newInstances md g proj ipb resolver log = (g, (None, Some err)).
Proof.
  unfold newInstances. intros [[Hni Hdns]|[Hdns Hres]]; rewrite Hdns.
  - rewrite bool_decide_eq_true_2 by done. simpl. by eexists.
  - rewrite andb_true_r. case_bool_decide; simpl; [by eexists|].
    rewrite bool_decide_eq_true_2 by done. by eexists.
Qed.

(** C5: provided the singleton initialisation succeeds, [newInstances]
    returns an error exactly when the configuration asks for DNS resolution
    together with a network interface, or asks for DNS resolution while no
    resolver is supplied; in every other configuration it returns the facade
    holding the configuration and the resolver. *)
Theorem C5_construction_fails_iff md g proj ipb resolver log :
  (initGlobalInstancesProvider md g proj log).2 = None →
  ((newInstances md g proj ipb resolver log).2.2 ≠ None
   ↔ (GetNetworkInterface ipb ≠ None ∧ GetUseDnsToResolve ipb = true)
     ∨ (GetUseDnsToResolve ipb = true ∧ resolver = None))
  ∧ ((newInstances md g proj ipb resolver log).2.2 = None →
     (newInstances md g proj ipb resolver log).2.1
     = Some {| pb := ipb; r := resolver |})
  ∧ ((newInstances md g proj ipb resolver log).2.2 ≠ None →
     (newInstances md g proj ipb resolver log).2.1 = None).
Proof.
  intros Hinit.
  destruct (decide ((GetNetworkInterface ipb ≠ None ∧ GetUseDnsToResolve ipb = true)
                    ∨ (GetUseDnsToResolve ipb = true ∧ resolver = None)))
    as [Hcfg|Hcfg].
  - destruct (newInstances_config_error md g proj ipb resolver log Hcfg)
      as [err ->]. simpl. by repeat split.
  - assert (Hgo : newInstances md g proj ipb resolver log
                  = ((initGlobalInstancesProvider md g proj log).1,
                     (Some {| pb := ipb; r := resolver |}, None))).
    { unfold newInstances.
      destruct (initGlobalInstancesProvider md g proj log) as [g' [err|]];
        [done|].
      destruct (GetUseDnsToResolve ipb) eqn:Hdns;
        repeat case_bool_decide; simpl; try done; exfalso; apply Hcfg; auto. }
    rewrite Hgo. simpl. repeat split; done.
Qed.

Lemma C5_construction_fails_iff_witness :
  (initGlobalInstancesProvider on_gce None "test-project" []).2 = None
  ∧ (newInstances on_gce None "test-project"
       {| GetNetworkInterface := ni_cfg 0 Instances_NetworkInterface_PUBLIC;
          GetUseDnsToResolve := false |} None []).2.1
    = Some (facade (ni_cfg 0 Instances_NetworkInterface_PUBLIC)).
Proof.
  assert (Hinit : (initGlobalInstancesProvider on_gce None "test-project" []).2 = None)
    by reflexivity.
  split; [exact Hinit|].
  exact (proj1 (proj2 (C5_construction_fails_iff on_gce None "test-project"
                         {| GetNetworkInterface := ni_cfg 0 Instances_NetworkInterface_PUBLIC;
                            GetUseDnsToResolve := false |} None [] Hinit))
               eq_refl).
Defined.

Example construction_rejects_dns_with_interface :
  newInstances on_gce None "test-project"
    {| GetNetworkInterface := ni_cfg 0 Instances_NetworkInterface_PRIVATE;
       GetUseDnsToResolve := true |} (Some any_resolver) []
  = (None, (None, Some "network_intf and use_dns_to_resolve are mutually exclusive")).
Proof. reflexivity. Qed.

Example construction_rejects_dns_without_resolver :
  newInstances on_gce None "test-project"
    {| GetNetworkInterface := None; GetUseDnsToResolve := true |} None []
  = (None, (None, Some "use_dns_to_resolve configured, but globalResolver is nil")).
Proof. reflexivity. Qed.

Example construction_creates_the_singleton :
  (newInstances on_gce None "test-project"
     {| GetNetworkInterface := None; GetUseDnsToResolve := false |} None []).1
  = Some provider0.
Proof. reflexivity. Qed.

(** A failing self-identity lookup fails the construction although the
    configuration is sound. *)
Example construction_fails_on_metadata_error :
  newInstances {| OnGCE := true; InstanceName := ("", Some "metadata: timeout") |}
     None "test-project"
     {| GetNetworkInterface := None; GetUseDnsToResolve := false |} None []
  = (None, (None, Some "initGlobalInstancesProvider: error while getting current instance name: metadata: timeout")).
Proof. reflexivity. Qed.

(** * The inventory fetch *)

(** The zone loop over zones that all answer: the items are appended zone
    by zone. *)
Lemma listInstances_zones_ok api proj zones itemss result :
  Forall2 (λ zone items, Instances_List api proj (Zone_Name zone) = inl items)
          zones itemss →
  listInstances_zones api proj zones result = inl (result ++ concat itemss).
Proof.
  intros Hall. revert result.
  induction Hall as [|zone items zones itemss Hzone _ IH]; intros result; simpl.
  - by rewrite app_nil_r.
  - by rewrite Hzone, IH, app_assoc.
Qed.

(** The zone loop stops at the first zone that fails. *)
Lemma listInstances_zones_err api proj before itemss zone after err result :
  Forall2 (λ zone items, Instances_List api proj (Zone_Name zone) = inl items)
          before itemss →
  Instances_List api proj (Zone_Name zone) = inr err →
  listInstances_zones api proj (before ++ zone :: after) result = inr err.
Proof.
  intros Hall Hzone. revert result.
  induction Hall as [|z items zones itemss Hz _ IH]; intros result; simpl.
  - by rewrite Hzone.
  - by rewrite Hz, IH.
Qed.

(** A result of the zone loop is the items of every zone, in zone order. *)
Lemma listInstances_zones_inv api proj zones result insts :
  listInstances_zones api proj zones result = inl insts →
  ∃ itemss,
    Forall2 (λ zone items, Instances_List api proj (Zone_Name zone) = inl items)
            zones itemss
    ∧ insts = result ++ concat itemss.
Proof.
  revert result.
  induction zones as [|zone zones IH]; intros result; simpl.
  - intros [= <-]. exists []. split; [constructor | by rewrite app_nil_r].
  - destruct (Instances_List api proj (Zone_Name zone)) as [items|err] eqn:Hzone;
      [|done].
    intros (itemss & Hall & ->)%IH.
    exists (items :: itemss). split; [by constructor|].
    simpl. by rewrite app_assoc.
Qed.

(** An error of the zone loop is the error of one of the zones. *)
Lemma listInstances_zones_err_inv api proj zones result err :
  listInstances_zones api proj zones result = inr err →
  ∃ zone, zone ∈ zones ∧ Instances_List api proj (Zone_Name zone) = inr err.
Proof.
  revert result.
  induction zones as [|zone zones IH]; intros result; simpl; [done|].
  destruct (Instances_List api proj (Zone_Name zone)) as [items|err'] eqn:Hzone.
  - intros (z & Hin & Hz)%IH. exists z. split; [by right | done].
  - intros [= <-]. exists zone. split; [by left | done].
Qed.

(** X1: [listInstances] succeeds exactly when the client, the service and
    the zone listing are obtained and every zone answers; its result is then
    the items of all zones, concatenated in the order of the zones. *)
Theorem listInstances_success_iff api proj insts :
  listInstances api proj = inl insts
  ↔ DefaultClient api = None
    ∧ compute_New api = None
    ∧ ∃ zones itemss,
        Zones_List api proj = inl zones
        ∧ Forall2 (λ zone items,
                     Instances_List api proj (Zone_Name zone) = inl items)
                  zones itemss
        ∧ insts = concat itemss.
Proof.
  unfold listInstances. split.
  - destruct (DefaultClient api); [done|].
    destruct (compute_New api); [done|].
    destruct (Zones_List api proj) as [zones|]; [|done].
    intros (itemss & Hall & ->)%listInstances_zones_inv.
    repeat split. by exists zones, itemss.
  - intros (-> & -> & zones & itemss & -> & Hall & ->).
    by rewrite (listInstances_zones_ok _ _ _ _ [] Hall).
Qed.

(** X2: when a zone fails after the zones before it answered,
    [listInstances] returns that zone's error; the items already collected
    are dropped and the zones after it are not asked for. *)
Theorem listInstances_first_failing_zone api proj before itemss zone after err :
  DefaultClient api = None →
  compute_New api = None →
  Zones_List api proj = inl (before ++ zone :: after) →
  Forall2 (λ zone items, Instances_List api proj (Zone_Name zone) = inl items)
          before itemss →
  Instances_List api proj (Zone_Name zone) = inr err →
  listInstances api proj = inr err.
Proof.
  intros Hclient Hnew Hzones Hall Hzone. unfold listInstances.
  rewrite Hclient, Hnew, Hzones.
  by apply (listInstances_zones_err _ _ _ itemss).
Qed.

Lemma listInstances_first_failing_zone_witness :
  listInstances (api_two_zones [vm1] (inr "googleapi: Error 403")) "test-project"
  = inr "googleapi: Error 403".
Proof.
  apply (listInstances_first_failing_zone
           (api_two_zones [vm1] (inr "googleapi: Error 403")) "test-project"
           [ {| Zone_Name := "zone-a" |} ] [ [vm1] ] {| Zone_Name := "zone-b" |} []
           "googleapi: Error 403").
  - reflexivity.
  - reflexivity.
  - reflexivity.
  - constructor; [reflexivity | constructor].
  - reflexivity.
Defined.

(** X3: an error returned by [listInstances] is always an error one of its
    API calls returned: creating the client, creating the service, listing
    the zones, or listing the instances of one of the listed zones. *)
Theorem listInstances_error_origin api proj err :
  listInstances api proj = inr err →
  DefaultClient api = Some err
  ∨ compute_New api = Some err
  ∨ Zones_List api proj = inr err
  ∨ ∃ zones zone,
      Zones_List api proj = inl zones
      ∧ zone ∈ zones
      ∧ Instances_List api proj (Zone_Name zone) = inr err.
Proof.
  unfold listInstances.
  destruct (DefaultClient api) as [e|]; [intros [= ->]; by left|].
  destruct (compute_New api) as [e|]; [intros [= ->]; right; by left|].
  destruct (Zones_List api proj) as [zones|e];
    [|intros [= ->]; right; right; by left].
  intros (zone & Hin & Hzone)%listInstances_zones_err_inv.
  right; right; right. by exists zones, zone.
Qed.

Lemma listInstances_error_origin_witness :
  listInstances api_down "test-project" = inr "googleapi: Error 503"
  ∧ (DefaultClient api_down = Some "googleapi: Error 503"
     ∨ compute_New api_down = Some "googleapi: Error 503"
     ∨ Zones_List api_down "test-project" = inr "googleapi: Error 503"
     ∨ ∃ zones zone,
         Zones_List api_down "test-project" = inl zones
         ∧ zone ∈ zones
         ∧ Instances_List api_down "test-project" (Zone_Name zone)
           = inr "googleapi: Error 503").
Proof.
  assert (Hfetch : listInstances api_down "test-project"
                   = inr "googleapi: Error 503") by reflexivity.
  split; [exact Hfetch|].
  exact (listInstances_error_origin api_down "test-project" _ Hfetch).
Defined.

(** * What a refresh cycle stores *)

(** The map after the loop: the key of the self-identity is untouched; any
    other key holds the last record of that name in the inventory, or what
    it held before when the inventory has no such record. *)
Lemma expand_loop_lookup this computeInstances c result n :
  (expand_loop this computeInstances c result).1 !! n
  = if decide (n = this) then c !! n
    else match last (filter (λ ins, Name ins = n) computeInstances) with
         | Some ins => Some ins
         | None => c !! n
         end.
Proof.
  revert c result.
  induction computeInstances as [|ins rest IH]; intros c result; simpl.
  - by case_decide.
  - destruct (decide (Name ins = this)) as [Hself|Hother]; rewrite IH.
    + case_decide as Hn; [done|].
      rewrite filter_cons_False; [done | congruence].
    + case_decide as Hn.
      * rewrite lookup_insert_ne; [done | congruence].
      * destruct (decide (Name ins = n)) as [Heq|Hne].
        -- rewrite filter_cons_True by done. rewrite last_cons.
           destruct (last (filter _ rest)); [done|].
           by rewrite <- Heq, lookup_insert_eq.
        -- rewrite filter_cons_False by done.
           by rewrite lookup_insert_ne.
Qed.

(** [get] after a successful cycle, in terms of [get] before it. *)
Lemma get_expand_success api ip computeInstances n :
  listInstances api (project ip) = inl computeInstances →
  get (expand api ip) n
  = if decide (n = thisInstance ip) then get ip n
    else match last (filter (λ ins, Name ins = n) computeInstances) with
         | Some ins => Some ins
         | None => get ip n
         end.
Proof.
  intros Hfetch. unfold get.
  destruct (expand_ok _ _ _ Hfetch) as [_ ->].
  apply expand_loop_lookup.
Qed.

(** [list] after a successful cycle. *)
Lemma list_expand_success api ip computeInstances :
  listInstances api (project ip) = inl computeInstances →
  list_ (expand api ip)
  = filter (λ n, n ≠ thisInstance ip) (Name <$> computeInstances).
Proof.
  intros Hfetch. unfold list_.
  destruct (expand_ok _ _ _ Hfetch) as [-> _].
  by rewrite expand_loop_names.
Qed.

(** X4: after a successful cycle, [get] of a name other than the
    self-identity returns the last record of that name in the fetched
    inventory, or, when the inventory has none, what it returned before the
    cycle; [get] of the self-identity returns what it returned before. *)
Theorem expand_get_after_success api ip computeInstances n :
  listInstances api (project ip) = inl computeInstances →
  get (expand api ip) n
  = if decide (n = thisInstance ip) then get ip n
    else match last (filter (λ ins, Name ins = n) computeInstances) with
         | Some ins => Some ins
         | None => get ip n
         end.
Proof. apply get_expand_success. Qed.

Lemma expand_get_after_success_witness :
  listInstances (api_two_zones [vm1; vm2] (inl [prober; vm1_moved]))
                (project provider0)
  = inl [vm1; vm2; prober; vm1_moved]
  ∧ get (expand (api_two_zones [vm1; vm2] (inl [prober; vm1_moved])) provider0) "vm-1"
    = Some vm1_moved.
Proof.
  assert (Hfetch : listInstances (api_two_zones [vm1; vm2] (inl [prober; vm1_moved]))
                     (project provider0)
                   = inl [vm1; vm2; prober; vm1_moved]) by reflexivity.
  split; [exact Hfetch|].
  exact (expand_get_after_success _ provider0 _ "vm-1" Hfetch).
Defined.

(** X5: after a successful cycle, [list] returns the names of the fetched
    records in inventory order, without the self-identity; a name reported
    twice is listed twice. *)
Theorem expand_list_after_success api ip computeInstances :
  listInstances api (project ip) = inl computeInstances →
  list_ (expand api ip)
  = filter (λ n, n ≠ thisInstance ip) (Name <$> computeInstances).
Proof. apply list_expand_success. Qed.

Lemma expand_list_after_success_witness :
  listInstances (api_two_zones [vm1; vm2] (inl [prober; vm1_moved]))
                (project provider1)
  = inl [vm1; vm2; prober; vm1_moved]
  ∧ list_ (expand (api_two_zones [vm1; vm2] (inl [prober; vm1_moved])) provider1)
    = ["vm-1"; "vm-2"; "vm-1"].
Proof.
  assert (Hfetch : listInstances (api_two_zones [vm1; vm2] (inl [prober; vm1_moved]))
                     (project provider1)
                   = inl [vm1; vm2; prober; vm1_moved]) by reflexivity.
  split; [exact Hfetch|].
  exact (expand_list_after_success _ provider1 _ Hfetch).
Defined.

(** A cycle never removes a key, whether it succeeds or fails. *)
Lemma expand_keeps_keys api ip n :
  is_Some (get ip n) → is_Some (get (expand api ip) n).
Proof.
  unfold get. intros Hkey.
  destruct (listInstances api (project ip)) as [insts|err] eqn:Hfetch.
  - destruct (expand_ok _ _ _ Hfetch) as [_ ->]. by apply expand_loop_keeps.
  - by destruct (expand_err _ _ _ Hfetch) as [_ ->].
Qed.

Lemma refresh_cycles_app apis1 apis2 ip :
  refresh_cycles (apis1 ++ apis2) ip = refresh_cycles apis2 (refresh_cycles apis1 ip).
Proof. unfold refresh_cycles. by rewrite foldl_app. Qed.

Lemma get_refresh_cycles_keeps apis ip n :
  is_Some (get ip n) → is_Some (get (refresh_cycles apis ip) n).
Proof.
  intros Hkey. induction apis as [|api apis IH] using rev_ind; [done|].
  rewrite refresh_cycles_snoc. by apply expand_keeps_keys.
Qed.

(** X8: no sequence of refresh cycles removes a key from the mapping: a name
    that [get] finds is found after any further cycles, also when the
    inventory no longer reports it. *)
Theorem refresh_cycles_keep_keys apis ip n :
  is_Some (get ip n) → is_Some (get (refresh_cycles apis ip) n).
Proof. apply get_refresh_cycles_keeps. Qed.

Lemma refresh_cycles_keep_keys_witness :
  is_Some (get provider1 "vm-1")
  ∧ is_Some (get (refresh_cycles [api_ok [vm2]; api_down; api_ok []] provider1) "vm-1").
Proof.
  assert (Hkey : is_Some (get provider1 "vm-1")) by (exists vm1; reflexivity).
  split; [exact Hkey|].
  exact (refresh_cycles_keep_keys [api_ok [vm2]; api_down; api_ok []]
           provider1 "vm-1" Hkey).
Defined.

(** X6: in every state reached from the initial provider, a record is
    cached under its own name. *)
Theorem cached_under_own_name md proj log ip0 apis n ins :
  initGlobalInstancesProvider md None proj log = (Some ip0, None) →
  get (refresh_cycles apis ip0) n = Some ins →
  Name ins = n.
Proof.
  intros Hinit. destruct (init_names_cached _ _ _ _ Hinit) as [_ Hcache].
  revert n ins. induction apis as [|api apis IH] using rev_ind; intros n ins.
  - unfold get. simpl. rewrite Hcache. by rewrite lookup_empty.
  - rewrite refresh_cycles_snoc.
    destruct (listInstances api (project (refresh_cycles apis ip0)))
      as [insts|err] eqn:Hfetch.
    + rewrite (get_expand_success _ _ _ n Hfetch).
      case_decide; [apply IH|].
      destruct (last (filter _ insts)) as [x|] eqn:Hlast; [|apply IH].
      intros [= <-]. apply last_Some_elem_of in Hlast.
      by apply list_elem_of_filter in Hlast as [? _].
    + unfold get. destruct (expand_err _ _ _ Hfetch) as [_ ->]. apply IH.
Qed.

Lemma cached_under_own_name_witness :
  initGlobalInstancesProvider on_gce None "test-project" [] = (Some provider0, None)
  ∧ get (refresh_cycles [api_ok [vm1; prober; vm2]; api_down] provider0) "vm-2"
    = Some vm2
  ∧ Name vm2 = "vm-2".
Proof.
  assert (Hinit : initGlobalInstancesProvider on_gce None "test-project" []
                  = (Some provider0, None)) by reflexivity.
  assert (Hget : get (refresh_cycles [api_ok [vm1; prober; vm2]; api_down] provider0)
                     "vm-2" = Some vm2) by reflexivity.
  split; [exact Hinit|]. split; [exact Hget|].
  exact (cached_under_own_name on_gce "test-project" [] provider0
           [api_ok [vm1; prober; vm2]; api_down] "vm-2" vm2 Hinit Hget).
Defined.

Lemma filter_name_absent (insts : list Instance) n :
  n ∉ Name <$> insts → filter (λ ins, Name ins = n) insts = [].
Proof.
  induction insts as [|ins rest IH]; [done|].
  rewrite fmap_cons, not_elem_of_cons. intros [Hne Hrest].
  rewrite filter_cons_False by congruence. by apply IH.
Qed.

Lemma filter_name_unique (insts : list Instance) ins :
  NoDup (Name <$> insts) → ins ∈ insts →
  filter (λ x, Name x = Name ins) insts = [ins].
Proof.
  induction insts as [|a rest IH]; [by intros _ ?%elem_of_nil|].
  rewrite fmap_cons, NoDup_cons. intros [Hfresh Hnodup] Hin.
  apply elem_of_cons in Hin as [->|Hin].
  - rewrite filter_cons_True by done. by rewrite filter_name_absent.
  - rewrite filter_cons_False; [by apply IH|].
    intros Heq. apply Hfresh. rewrite Heq. by apply list_elem_of_fmap_2.
Qed.

Section StoreAndResolve.

Variable ParseIP : string → option IP.
Variable ParseCIDR : string → option IP * option IPNet * option error.

(** X7: the self-identity is never a key of the mapping in a state reached
    from the initial provider, so a facade that does not delegate to DNS
    answers its own machine's name with the not-in-database error. *)
Theorem self_never_cached md proj log ip0 apis i ipVer :
  initGlobalInstancesProvider md None proj log = (Some ip0, None) →
  GetUseDnsToResolve (pb i) = false →
  get (refresh_cycles apis ip0) (thisInstance ip0) = None
  ∧ Resolve ParseIP ParseCIDR (Some (refresh_cycles apis ip0)) i
            (thisInstance ip0) ipVer
    = Returns (None, Some ("gce.instances.resolve(" +:+ thisInstance ip0 +:+ "): instance not in in-memory GCE instances database")).
Proof.
  intros Hinit Hdns.
  destruct (init_names_cached _ _ _ _ Hinit) as [_ Hcache].
  assert (Hget : get (refresh_cycles apis ip0) (thisInstance ip0) = None).
  { induction apis as [|api apis IH] using rev_ind.
    - unfold get. simpl. by rewrite Hcache, lookup_empty.
    - rewrite refresh_cycles_snoc.
      destruct (listInstances api (project (refresh_cycles apis ip0)))
        as [insts|err] eqn:Hfetch.
      + rewrite (get_expand_success _ _ _ _ Hfetch).
        rewrite refresh_cycles_thisInstance. by rewrite decide_True.
      + unfold get in *. by destruct (expand_err _ _ _ Hfetch) as [_ ->]. }
  split; [exact Hget|].
  unfold Resolve. by rewrite Hdns, Hget.
Qed.

(** X15: a successful cycle whose inventory does not report a name leaves
    the answers for that name as they were: [get] returns the same record
    and [Resolve] the same result as before the cycle. *)
Theorem unreported_name_unchanged api ip computeInstances i name ipVer :
  listInstances api (project ip) = inl computeInstances →
  name ∉ Name <$> computeInstances →
  get (expand api ip) name = get ip name
  ∧ Resolve ParseIP ParseCIDR (Some (expand api ip)) i name ipVer
    = Resolve ParseIP ParseCIDR (Some ip) i name ipVer.
Proof.
  intros Hfetch Habsent.
  assert (Hget : get (expand api ip) name = get ip name).
  { rewrite (get_expand_success _ _ _ _ Hfetch).
    case_decide; [done|]. by rewrite filter_name_absent. }
  split; [exact Hget|]. unfold Resolve. by rewrite Hget.
Qed.

End StoreAndResolve.

Lemma self_never_cached_witness :
  initGlobalInstancesProvider on_gce None "test-project" [] = (Some provider0, None)
  ∧ Resolve GoNet.ParseIP GoNet.ParseCIDR
            (Some (refresh_cycles [api_ok [prober; vm1]; api_down] provider0))
            (facade None) (thisInstance provider0) 4
    = Returns (None, Some "gce.instances.resolve(prober): instance not in in-memory GCE instances database").
Proof.
  assert (Hinit : initGlobalInstancesProvider on_gce None "test-project" []
                  = (Some provider0, None)) by reflexivity.
  split; [exact Hinit|].
  exact (proj2 (self_never_cached GoNet.ParseIP GoNet.ParseCIDR on_gce
                  "test-project" [] provider0 [api_ok [prober; vm1]; api_down]
                  (facade None) 4 Hinit eq_refl)).
Defined.

Lemma unreported_name_unchanged_witness :
  listInstances (api_ok [vm2]) (project provider1) = inl [vm2]
  ∧ ("vm-1" ∉ Name <$> [vm2])
  ∧ Resolve GoNet.ParseIP GoNet.ParseCIDR (Some (expand (api_ok [vm2]) provider1))
            (facade None) "vm-1" 4
    = Resolve GoNet.ParseIP GoNet.ParseCIDR (Some provider1) (facade None) "vm-1" 4.
Proof.
  assert (Hfetch : listInstances (api_ok [vm2]) (project provider1) = inl [vm2])
    by reflexivity.
  assert (Habsent : "vm-1" ∉ (Name <$> [vm2]))
    by (intros Hin; apply list_elem_of_singleton in Hin; discriminate Hin).
  split; [exact Hfetch|]. split; [exact Habsent|].
  exact (proj2 (unreported_name_unchanged GoNet.ParseIP GoNet.ParseCIDR
                  (api_ok [vm2]) provider1 [vm2] (facade None) "vm-1" 4
                  Hfetch Habsent)).
Defined.

(** X16: when the names in the fetched inventory are pairwise different,
    every fetched record other than the self-identity's is returned by [get]
    under its name after the cycle, and [list] has no name twice. *)
Theorem unique_names_round_trip api ip computeInstances ins :
  listInstances api (project ip) = inl computeInstances →
  NoDup (Name <$> computeInstances) →
  ins ∈ computeInstances →
  Name ins ≠ thisInstance ip →
  get (expand api ip) (Name ins) = Some ins
  ∧ NoDup (list_ (expand api ip)).
Proof.
  intros Hfetch Hnodup Hin Hother. split.
  - rewrite (get_expand_success _ _ _ _ Hfetch).
    rewrite decide_False by done. by rewrite filter_name_unique.
  - rewrite (list_expand_success _ _ _ Hfetch). by apply NoDup_filter.
Qed.

Lemma unique_names_round_trip_witness :
  listInstances (api_ok [vm1_moved; prober; vm2]) (project provider1)
  = inl [vm1_moved; prober; vm2]
  ∧ get (expand (api_ok [vm1_moved; prober; vm2]) provider1) "vm-1" = Some vm1_moved.
Proof.
  assert (Hfetch : listInstances (api_ok [vm1_moved; prober; vm2]) (project provider1)
                   = inl [vm1_moved; prober; vm2]) by reflexivity.
  split; [exact Hfetch|].
  refine (proj1 (unique_names_round_trip (api_ok [vm1_moved; prober; vm2]) provider1
                   [vm1_moved; prober; vm2] vm1_moved Hfetch _ _ _)).
  - compute_done.
  - left.
  - discriminate.
Defined.

(** X17: in a state reached from the initial provider, the keys of the
    mapping are exactly the names that [list] returned after one of the
    cycles run so far. *)
Theorem keys_are_names_ever_listed md proj log ip0 apis n :
  initGlobalInstancesProvider md None proj log = (Some ip0, None) →
  is_Some (get (refresh_cycles apis ip0) n)
  ↔ ∃ k, (k ≤ length apis)%nat ∧ n ∈ list_ (refresh_cycles (take k apis) ip0).
Proof.
  intros Hinit.
  destruct (init_names_cached _ _ _ _ Hinit) as [Hnames Hcache]. split.
  - induction apis as [|api apis IH] using rev_ind.
    + unfold get. simpl. rewrite Hcache, lookup_empty. by intros [? ?].
    + rewrite refresh_cycles_snoc. intros Hkey.
      assert (Hold : is_Some (get (refresh_cycles apis ip0) n) →
                     ∃ k, (k ≤ length (apis ++ [api]))%nat
                          ∧ n ∈ list_ (refresh_cycles (take k (apis ++ [api])) ip0)).
      { intros (k & Hk & Hlisted)%IH. exists k.
        rewrite length_app, take_app_le by done. split; [lia | done]. }
      destruct (listInstances api (project (refresh_cycles apis ip0)))
        as [insts|err] eqn:Hfetch.
      * rewrite (get_expand_success _ _ _ _ Hfetch) in Hkey.
        rewrite refresh_cycles_thisInstance in Hkey.
        case_decide as Hself; [by apply Hold|].
        destruct (last (filter _ insts)) as [x|] eqn:Hlast; [|by apply Hold].
        apply last_Some_elem_of, list_elem_of_filter in Hlast as [Hname Hx].
        exists (length (apis ++ [api])). split; [done|].
        rewrite take_ge by done. rewrite refresh_cycles_snoc.
        rewrite (list_expand_success _ _ _ Hfetch).
        rewrite refresh_cycles_thisInstance.
        apply list_elem_of_filter. split; [done|].
        rewrite <- Hname. by apply list_elem_of_fmap_2.
      * apply Hold. unfold get in *.
        by destruct (expand_err _ _ _ Hfetch) as [_ <-].
  - intros (k & Hk & Hlisted).
    rewrite <- (take_drop k apis), refresh_cycles_app.
    apply get_refresh_cycles_keeps.
    apply (refresh_cycles_names_cached (take k apis) ip0); [|done].
    intros m. unfold list_. rewrite Hnames. by intros ?%elem_of_nil.
Qed.

Lemma keys_are_names_ever_listed_witness :
  initGlobalInstancesProvider on_gce None "test-project" [] = (Some provider0, None)
  ∧ ∃ k, (k ≤ length [api_ok [vm1; vm2]; api_ok [vm2]])%nat
         ∧ "vm-1" ∈ list_ (refresh_cycles (take k [api_ok [vm1; vm2]; api_ok [vm2]])
                                          provider0).
Proof.
  assert (Hinit : initGlobalInstancesProvider on_gce None "test-project" []
                  = (Some provider0, None)) by reflexivity.
  split; [exact Hinit|].
  apply (keys_are_names_ever_listed on_gce "test-project" [] provider0
           [api_ok [vm1; vm2]; api_ok [vm2]] "vm-1" Hinit).
  exists vm1. reflexivity.
Defined.

(** * The singleton and the facades built on it *)

(** Without a configuration error, [newInstances] is decided by the
    singleton initialisation. *)
Lemma newInstances_sound_config md g proj ipb resolver log :
  ¬ ((GetNetworkInterface ipb ≠ None ∧ GetUseDnsToResolve ipb = true)
     ∨ (GetUseDnsToResolve ipb = true ∧ resolver = None)) →
  newInstances md g proj ipb resolver log
  = match initGlobalInstancesProvider md g proj log with
    | (g', Some err) => (g', (None, Some err))
    | (g', None) => (g', (Some {| pb := ipb; r := resolver |}, None))
    end.
Proof.
  intros Hcfg. unfold newInstances.
  destruct (GetUseDnsToResolve ipb) eqn:Hdns;
    repeat case_bool_decide; simpl; try done; exfalso; apply Hcfg; auto.
Qed.

(** An initialisation without error leaves a provider in the global. *)
Lemma init_success_is_Some md g proj log g' :
  initGlobalInstancesProvider md g proj log = (g', None) → is_Some g'.
Proof.
  unfold initGlobalInstancesProvider. destruct g as [ip|].
  - intros [= <-]. by eexists.
  - destruct (OnGCE md); [destruct (InstanceName md) as [this [err|]]|];
      intros [= <-]; by eexists.
Qed.

Lemma newInstances_success_inv md g proj ipb resolver log g' i :
  newInstances md g proj ipb resolver log = (g', (Some i, None)) →
  i = {| pb := ipb; r := resolver |}
  ∧ ¬ ((GetNetworkInterface ipb ≠ None ∧ GetUseDnsToResolve ipb = true)
       ∨ (GetUseDnsToResolve ipb = true ∧ resolver = None))
  ∧ is_Some g'.
Proof.
  intros Hnew.
  destruct (decide ((GetNetworkInterface ipb ≠ None ∧ GetUseDnsToResolve ipb = true)
                    ∨ (GetUseDnsToResolve ipb = true ∧ resolver = None)))
    as [Hcfg|Hcfg].
  - destruct (newInstances_config_error md g proj ipb resolver log Hcfg)
      as [err Herr]. rewrite Herr in Hnew. discriminate Hnew.
  - rewrite (newInstances_sound_config _ _ _ _ _ _ Hcfg) in Hnew.
    destruct (initGlobalInstancesProvider md g proj log) as [g1 [err|]] eqn:Hinit;
      [discriminate Hnew|].
    injection Hnew as <- <-.
    split; [done|]. split; [done|]. by apply (init_success_is_Some _ _ _ _ _ Hinit).
Qed.

(** X9: once the singleton exists, [newInstances] never replaces it, whatever
    project is asked for and whatever the metadata server would answer; the
    construction then fails only for the two configuration errors. *)
Theorem newInstances_reuses_singleton md ip proj ipb resolver log :
  (newInstances md (Some ip) proj ipb resolver log).1 = Some ip
  ∧ ((newInstances md (Some ip) proj ipb resolver log).2.2 ≠ None
     ↔ (GetNetworkInterface ipb ≠ None ∧ GetUseDnsToResolve ipb = true)
       ∨ (GetUseDnsToResolve ipb = true ∧ resolver = None)).
Proof.
  destruct (decide ((GetNetworkInterface ipb ≠ None ∧ GetUseDnsToResolve ipb = true)
                    ∨ (GetUseDnsToResolve ipb = true ∧ resolver = None)))
    as [Hcfg|Hcfg].
  - destruct (newInstances_config_error md (Some ip) proj ipb resolver log Hcfg)
      as [err ->]. simpl. by repeat split.
  - rewrite (newInstances_sound_config _ _ _ _ _ _ Hcfg). simpl.
    by repeat split.
Qed.

(** X10: the first construction in a process.  When it succeeds, the global
    holds a provider for the requested project with an empty name list and
    an empty mapping, whose self-identity is the metadata server's instance
    name on GCE and the empty string elsewhere, and [List] returns the empty
    list.  When it fails, the global stays nil and no facade is returned. *)
Theorem newInstances_first_construction md proj ipb resolver log g' inst err :
  newInstances md None proj ipb resolver log = (g', (inst, err)) →
  match err with
  | None =>
      ∃ ip i, g' = Some ip ∧ inst = Some i
              ∧ project ip = proj
              ∧ thisInstance ip = (if OnGCE md then (InstanceName md).1 else "")
              ∧ names ip = [] ∧ cache ip = ∅
              ∧ List g' i = Returns []
  | Some _ => g' = None ∧ inst = None
  end.
Proof.
  destruct (decide ((GetNetworkInterface ipb ≠ None ∧ GetUseDnsToResolve ipb = true)
                    ∨ (GetUseDnsToResolve ipb = true ∧ resolver = None)))
    as [Hcfg|Hcfg].
  - destruct (newInstances_config_error md None proj ipb resolver log Hcfg)
      as [e ->]. by intros [= <- <- <-].
  - rewrite (newInstances_sound_config _ _ _ _ _ _ Hcfg).
    unfold initGlobalInstancesProvider.
    destruct (OnGCE md); [destruct (InstanceName md) as [this [e|]]|];
      intros [= <- <- <-]; simpl; try done; by eexists _, _.
Qed.

Lemma newInstances_first_construction_witness :
  ∃ ip i, Some provider0 = Some ip
          ∧ Some (facade None) = Some i
          ∧ project ip = "test-project"
          ∧ thisInstance ip = (if OnGCE on_gce then (InstanceName on_gce).1 else "")
          ∧ names ip = [] ∧ cache ip = ∅
          ∧ List (Some provider0) i = Returns [].
Proof.
  exact (newInstances_first_construction on_gce "test-project"
           {| GetNetworkInterface := None; GetUseDnsToResolve := false |} None []
           (Some provider0) (Some (facade None)) None eq_refl).
Defined.

Section FacadeFacts.

Variable ParseIP : string → option IP.
Variable ParseCIDR : string → option IP * option IPNet * option error.


(** X11: a facade that [newInstances] built for DNS resolution has a
    resolver, and its [Resolve] is the resolver's answer, whatever the cache
    holds and even before the global provider exists. *)
Theorem dns_facade_delegates md g proj ipb resolver log g' i :
  newInstances md g proj ipb resolver log = (g', (Some i, None)) →
  GetUseDnsToResolve ipb = true →
  ∃ res, resolver = Some res
         ∧ ∀ gp name ipVer,
             Resolve ParseIP ParseCIDR gp i name ipVer
             = Returns (Resolver_Resolve res name ipVer).
Proof.
  intros (-> & Hcfg & _)%newInstances_success_inv Hdns.
  destruct resolver as [res|]; [|destruct Hcfg; by right].
  exists res. split; [done|]. intros gp name ipVer.
  unfold Resolve. simpl. by rewrite Hdns.
Qed.


(** X13: for a cached record, an index at or past the end of the interface
    list is answered, in every addressing mode, with the error that names
    the index, and with no address. *)
Theorem index_past_end_is_an_error ip i name ipVer ins niIndex ipType :
  GetUseDnsToResolve (pb i) = false →
  get ip name = Some ins →
  selection (pb i) = (niIndex, ipType) →
  Z.of_nat (length (NetworkInterfaces ins)) ≤ niIndex →
  Resolve ParseIP ParseCIDR (Some ip) i name ipVer
  = Returns (None, Some ("gce.instances.resolve(" +:+ name +:+ "): no network interface at index: " +:+ pretty niIndex)).
Proof.
  intros Hdns Hget Hsel Hlen. unfold Resolve. rewrite Hdns, Hget, Hsel.
  by destruct (Z.leb_spec (Z.of_nat (length (NetworkInterfaces ins))) niIndex);
    [|lia].
Qed.

(** X14: on an existing interface, ALIAS mode without alias ranges and an
    address type outside PRIVATE, PUBLIC and ALIAS are answered with their
    own errors and no address. *)
Theorem alias_without_range_and_unknown_type ip i name ipVer ins idx intf :
  GetUseDnsToResolve (pb i) = false →
  get ip name = Some ins →
  NetworkInterfaces ins !! idx = Some intf →
  (selection (pb i) = (Z.of_nat idx, Instances_NetworkInterface_ALIAS) →
     AliasIpRanges intf = [] →
     Resolve ParseIP ParseCIDR (Some ip) i name ipVer
     = Returns (None, Some ("gce.instances.resolve(" +:+ name +:+ "): no alias IP range")))
  ∧ (selection (pb i) = (Z.of_nat idx, Instances_NetworkInterface_other) →
     Resolve ParseIP ParseCIDR (Some ip) i name ipVer
     = Returns (None, Some ("gce.instances.resolve(" +:+ name +:+ "): unknown IP type for network interface"))).
Proof.
  intros Hdns Hget Hintf. split.
  - intros Hsel Hars.
    rewrite (Resolve_selected _ _ _ _ _ _ _ _ _ _ Hdns Hget Hsel Hintf).
    by rewrite Hars.
  - intros Hsel.
    by rewrite (Resolve_selected _ _ _ _ _ _ _ _ _ _ Hdns Hget Hsel Hintf).
Qed.

End FacadeFacts.

Lemma dns_facade_delegates_witness :
  ∃ res, Some any_resolver = Some res
         ∧ ∀ gp name ipVer,
             Resolve GoNet.ParseIP GoNet.ParseCIDR gp
                     {| pb := {| GetNetworkInterface := None;
                                 GetUseDnsToResolve := true |};
                        r := Some any_resolver |} name ipVer
             = Returns (Resolver_Resolve res name ipVer).
Proof.
  exact (dns_facade_delegates GoNet.ParseIP GoNet.ParseCIDR on_gce None
           "test-project"
           {| GetNetworkInterface := None; GetUseDnsToResolve := true |}
           (Some any_resolver) [] (Some provider0) _ eq_refl eq_refl).
Defined.


Lemma index_past_end_is_an_error_witness :
  Z.of_nat (length (NetworkInterfaces vm2)) ≤ 5
  ∧ Resolve GoNet.ParseIP GoNet.ParseCIDR (Some provider1)
            (facade (ni_cfg 5 Instances_NetworkInterface_ALIAS)) "vm-2" 4
    = Returns (None, Some "gce.instances.resolve(vm-2): no network interface at index: 5").
Proof.
  assert (Hlen : Z.of_nat (length (NetworkInterfaces vm2)) ≤ 5) by (simpl; lia).
  split; [exact Hlen|].
  exact (index_past_end_is_an_error GoNet.ParseIP GoNet.ParseCIDR provider1
           (facade (ni_cfg 5 Instances_NetworkInterface_ALIAS)) "vm-2" 4 vm2 5
           Instances_NetworkInterface_ALIAS eq_refl eq_refl eq_refl Hlen).
Defined.

Lemma alias_without_range_and_unknown_type_witness :
  get (expand (api_ok [vm1_moved]) provider0) "vm-1" = Some vm1_moved
  ∧ Resolve GoNet.ParseIP GoNet.ParseCIDR (Some (expand (api_ok [vm1_moved]) provider0))
            (facade (ni_cfg 0 Instances_NetworkInterface_ALIAS)) "vm-1" 4
    = Returns (None, Some "gce.instances.resolve(vm-1): no alias IP range")
  ∧ Resolve GoNet.ParseIP GoNet.ParseCIDR (Some (expand (api_ok [vm1_moved]) provider0))
            (facade (ni_cfg 0 Instances_NetworkInterface_other)) "vm-1" 4
    = Returns (None, Some "gce.instances.resolve(vm-1): unknown IP type for network interface").
Proof.
  split; [reflexivity|]. split.
  - exact (proj1 (alias_without_range_and_unknown_type GoNet.ParseIP GoNet.ParseCIDR
                    (expand (api_ok [vm1_moved]) provider0)
                    (facade (ni_cfg 0 Instances_NetworkInterface_ALIAS)) "vm-1" 4
                    vm1_moved 0%nat _ eq_refl eq_refl eq_refl)
                 eq_refl eq_refl).
  - exact (proj2 (alias_without_range_and_unknown_type GoNet.ParseIP GoNet.ParseCIDR
                    (expand (api_ok [vm1_moved]) provider0)
                    (facade (ni_cfg 0 Instances_NetworkInterface_other)) "vm-1" 4
                    vm1_moved 0%nat _ eq_refl eq_refl eq_refl)
                 eq_refl).
Defined.
